(** * kv_bulk.js: bulk read from a key-value namespace

    A shallow embedding of [src/js/kv_bulk.js] and the properties of its
    single exported function [kv_bulk_get].

    {v
    export async function kv_bulk_get(kv, keys, type = "text", withMetadata = false) {
      if (!kv || typeof kv.get !== "function") throw new Error(`KV namespace not valid`);
      if (!Array.isArray(keys)) throw new Error("keys must be an array of strings");
      if (withMetadata) {
        const map = await kv.getWithMetadata(keys, {type});
        return Object.fromEntries(map);
      } else {
        const map = await kv.get(keys, {type});
        return Object.fromEntries(map);
      }
    }
    v}

    Modelling choices.
    - JavaScript objects live in a heap (a finite map from locations to
      cells); a value of object type is a reference.  Arrays, [Map]s and
      plain objects are the three kinds of cell.  Sharing is therefore
      visible: the array the caller passes as [keys] is the very array the
      store receives.
    - The namespace [kv] carries functions, so it is kept outside the heap
      and is seen through the only two property reads the source performs
      on it, [kv.get] and [kv.getWithMetadata].
    - A bulk read of the store is an arbitrary heap transformer together
      with the way the awaited expression settles.
    - An [async] function always hands back a promise; [kv_bulk_get]
      yields the final state of that promise, the heap at that point and
      the list of store calls it issued.
    - [Error] objects are represented by value: their identity plays no
      role in the source.  The text of an engine-raised [TypeError] is
      engine-defined and is replaced by its cause.
    - Objects that are unreachable garbage as soon as an exception unwinds
      (a half-built result, an options literal whose callee turned out not
      to be callable) are not allocated.
    - Property enumeration order of plain objects is not represented.
    - [Symbol] and [BigInt] primitives, accessor properties and proxies are
      outside the model. *)

From Stdlib Require Import Floats.
From stdpp Require Import gmap strings list fin_maps.

Local Open Scope string_scope.

(** ** Values and heap *)

Abbreviation loc := positive (only parsing).

Inductive Prim :=
| PUndefined
| PNull
| PBool (b : bool)
| PNum (n : float)
| PStr (s : string).

Inductive TypeErrorCause :=
| NotAFunction
| NotIterable
| NotAnEntryObject.

Inductive ErrorObject :=
| ErrorNew (message : string)
| TypeError (cause : TypeErrorCause).

Inductive JsVal :=
| VPrim (p : Prim)
| VError (e : ErrorObject)
| VRef (l : loc).

Abbreviation VUndefined := (VPrim PUndefined).
Abbreviation VNull := (VPrim PNull).
Abbreviation VBool b := (VPrim (PBool b)).
Abbreviation VNum n := (VPrim (PNum n)).
Abbreviation VStr s := (VPrim (PStr s)).

(** A [Map] cell keeps its entries in insertion order.  Its keys are
    strings, as the source's comments type the store's answers
    ([Map<string, ...>]). *)
Inductive Cell :=
| CArray (elems : list JsVal)
| CMap (entries : list (string * JsVal))
| CObject (props : gmap string JsVal).

Abbreviation Heap := (gmap positive Cell) (only parsing).

Definition alloc (h : Heap) (c : Cell) : Heap * loc :=
  let l := fresh (dom h) in (<[l := c]> h, l).

(** ** Abstract operations of the language used by the source *)

Definition ToBoolean_prim (p : Prim) : bool :=
  match p with
  | PUndefined | PNull => false
  | PBool b => b
  | PNum n => negb (PrimFloat.eqb n 0%float || PrimFloat.is_nan n)
  | PStr s => negb (String.eqb s "")
  end.

Definition ToBoolean (v : JsVal) : bool :=
  match v with
  | VPrim p => ToBoolean_prim p
  | VError _ | VRef _ => true
  end.

(** [Array.isArray] *)
Definition Array_isArray (h : Heap) (v : JsVal) : bool :=
  match v with
  | VRef l => match h !! l with Some (CArray _) => true | _ => false end
  | _ => false
  end.

(** Default parameter values: the initialiser is used when the argument is
    [undefined], which is also what an omitted argument is. *)
Definition default_param (dflt arg : JsVal) : JsVal :=
  match arg with
  | VUndefined => dflt
  | _ => arg
  end.

Inductive Completion :=
| Normal (v : JsVal)
| Throw (e : JsVal).

(** [CreateDataPropertyOrThrow] for each entry, in iteration order: a later
    entry with the same key overwrites an earlier one. *)
Definition add_entries (entries : list (string * JsVal))
    (o : gmap string JsVal) : gmap string JsVal :=
  foldl (fun acc kv => <[kv.1 := kv.2]> acc) o entries.

(** [Object.fromEntries(iterable)].  [None] marks the iterables whose
    traversal is not modelled: arrays whose first element is an object
    (the key of an entry may then need a user-defined string conversion)
    and dangling references. *)
Definition Object_fromEntries (h : Heap) (iterable : JsVal)
    : option (Heap * Completion) :=
  match iterable with
  | VStr s =>
      if String.eqb s ""
      then let '(h', l) := alloc h (CObject ∅) in Some (h', Normal (VRef l))
      else Some (h, Throw (VError (TypeError NotAnEntryObject)))
  | VPrim _ | VError _ => Some (h, Throw (VError (TypeError NotIterable)))
  | VRef m =>
      match h !! m with
      | Some (CMap entries) =>
          let '(h', l) := alloc h (CObject (add_entries entries ∅)) in
          Some (h', Normal (VRef l))
      | Some (CObject _) => Some (h, Throw (VError (TypeError NotIterable)))
      | Some (CArray []) =>
          let '(h', l) := alloc h (CObject ∅) in Some (h', Normal (VRef l))
      | Some (CArray (VPrim _ :: _)) =>
          Some (h, Throw (VError (TypeError NotAnEntryObject)))
      | Some (CArray _) => None
      | None => None
      end
  end.

(** ** The store *)

(** How the awaited call expression [await kv.m(keys, {type})] settles:
    the call throws before it returns; it returns a value, or a promise
    that is fulfilled with one; it returns a promise that is rejected; it
    returns a promise that stays pending for ever. *)
Inductive Settlement :=
| Throws (e : JsVal)
| Resolves (v : JsVal)
| Rejects (e : JsVal)
| NeverSettles.

(** A bulk read receives the heap, the [keys] argument and the reference
    to the options object.  The heap it gives back is the heap at the
    moment the awaiting function resumes. *)
Definition BulkRead : Type := Heap -> JsVal -> JsVal -> Heap * Settlement.

(** What reading a property of [kv] gives: a function, or some other value
    ([undefined] when the property is absent). *)
Inductive Member :=
| NotCallable (v : JsVal)
| Callable (f : BulkRead).

Record StoreObject := {
  get : Member;
  getWithMetadata : Member
}.

(** The [kv] argument: a primitive, or a value of object type (a plain
    object, a class instance, a function, ...) seen through its two
    members. *)
Inductive KvArg :=
| KvPrim (p : Prim)
| KvObject (o : StoreObject).

Inductive Method := MGet | MGetWithMetadata.

Definition ToBoolean_kv (kv : KvArg) : bool :=
  match kv with
  | KvPrim p => ToBoolean_prim p
  | KvObject _ => true
  end.

(** [kv.get] and [kv.getWithMetadata]; neither name is a property of the
    wrapper of a primitive. *)
Definition GetMember (kv : KvArg) (m : Method) : Member :=
  match kv with
  | KvPrim _ => NotCallable VUndefined
  | KvObject o =>
      match m with
      | MGet => get o
      | MGetWithMetadata => getWithMetadata o
      end
  end.

(** [typeof x === "function"] *)
Definition typeof_function (x : Member) : bool :=
  match x with
  | Callable _ => true
  | NotCallable _ => false
  end.

(** ** The function *)

Inductive Promise :=
| Fulfilled (v : JsVal)
| Rejected (e : JsVal)
| Pending.

(** One store call as issued: which read, and its two arguments. *)
Record StoreCall := {
  call_method : Method;
  call_keys : JsVal;
  call_options : JsVal
}.

(** The outcome of one call of [kv_bulk_get]: the heap when its promise
    settles (or when it stops for ever), the store calls issued, in order,
    and the state of the promise. *)
Record Run := {
  heap_after : Heap;
  calls : list StoreCall;
  promise : Promise
}.

(** The two errors the function raises by itself.  The source throws
    plain [Error] objects told apart by their message; the names are the
    ones the specification gives them. *)
Definition InvalidStoreHandle : JsVal :=
  VError (ErrorNew "KV namespace not valid").

Definition InvalidKeyList : JsVal :=
  VError (ErrorNew "keys must be an array of strings").

(** The object literal [{type}]. *)
Definition options_object (h : Heap) (type : JsVal) : Heap * loc :=
  alloc h (CObject {[ "type" := type ]}).

(** [kv.m(keys, {type})]: the options literal is built, then the callee is
    applied if it is callable. *)
Definition call_member (h : Heap) (kv : KvArg) (m : Method)
    (keys type : JsVal) : Heap * list StoreCall * Settlement :=
  match GetMember kv m with
  | NotCallable _ => (h, [], Throws (VError (TypeError NotAFunction)))
  | Callable f =>
      let '(h1, o) := options_object h type in
      let '(h2, s) := f h1 keys (VRef o) in
      (h2, [ {| call_method := m; call_keys := keys; call_options := VRef o |} ], s)
  end.

(** [const map = await kv.m(keys, {type}); return Object.fromEntries(map);] *)
Definition read_and_reshape (h : Heap) (kv : KvArg) (m : Method)
    (keys type : JsVal) : option Run :=
  let '(h2, cs, s) := call_member h kv m keys type in
  match s with
  | Throws e | Rejects e =>
      Some {| heap_after := h2; calls := cs; promise := Rejected e |}
  | NeverSettles =>
      Some {| heap_after := h2; calls := cs; promise := Pending |}
  | Resolves map =>
      match Object_fromEntries h2 map with
      | Some (h3, Normal v) =>
          Some {| heap_after := h3; calls := cs; promise := Fulfilled v |}
      | Some (h3, Throw e) =>
          Some {| heap_after := h3; calls := cs; promise := Rejected e |}
      | None => None
      end
  end.

Definition kv_bulk_get (h : Heap) (kv : KvArg)
    (keys type withMetadata : JsVal) : option Run :=
  let type := default_param (VStr "text") type in
  let withMetadata := default_param (VBool false) withMetadata in
  if negb (ToBoolean_kv kv) || negb (typeof_function (GetMember kv MGet))
  then Some {| heap_after := h; calls := []; promise := Rejected InvalidStoreHandle |}
  else if negb (Array_isArray h keys)
  then Some {| heap_after := h; calls := []; promise := Rejected InvalidKeyList |}
  else if ToBoolean withMetadata
  then read_and_reshape h kv MGetWithMetadata keys type
  else read_and_reshape h kv MGet keys type.

(** The read the source selects: [withMetadata ? getWithMetadata : get]. *)
Definition selected_method (withMetadata : JsVal) : Method :=
  if ToBoolean withMetadata then MGetWithMetadata else MGet.

(** The store handle passes the first guard of the source. *)
Definition valid_store (kv : KvArg) : bool :=
  ToBoolean_kv kv && typeof_function (GetMember kv MGet).

(** [keys] is an array all of whose elements are strings. *)
Definition is_string (v : JsVal) : bool :=
  match v with VStr _ => true | _ => false end.

Definition array_of_strings (h : Heap) (keys : JsVal) : bool :=
  match keys with
  | VRef l =>
      match h !! l with
      | Some (CArray elems) => forallb is_string elems
      | _ => false
      end
  | _ => false
  end.

(** ** Sample stores and heaps *)

(** A store over the contents [{"a": "1", "b": "2"}]: it answers a bulk
    read with a fresh [Map] holding one entry per requested string key,
    [null] for the keys it does not have. *)
Definition sample_contents : gmap string JsVal :=
  {[ "a" := VStr "1"; "b" := VStr "2" ]}.

Definition requested (h : Heap) (keys : JsVal) : list string :=
  match keys with
  | VRef l =>
      match h !! l with
      | Some (CArray elems) =>
          remove_dups
            (omap (fun v => match v with VStr s => Some s | _ => None end) elems)
      | _ => []
      end
  | _ => []
  end.

Definition sample_get : BulkRead := fun h keys _ =>
  let entries :=
    (fun k => (k, default VNull (sample_contents !! k))) <$> requested h keys in
  let '(h', l) := alloc h (CMap entries) in
  (h', Resolves (VRef l)).

(** The combined read allocates a [{value, metadata}] object per key the
    store has, then the [Map]. *)
Fixpoint sample_composites (h : Heap) (ks : list string)
    : Heap * list (string * JsVal) :=
  match ks with
  | [] => (h, [])
  | k :: ks' =>
      match sample_contents !! k with
      | Some v =>
          let '(h1, c) :=
            alloc h (CObject {[ "value" := v; "metadata" := VStr ("M_" ++ k) ]}) in
          let '(h2, es) := sample_composites h1 ks' in
          (h2, (k, VRef c) :: es)
      | None =>
          let '(h2, es) := sample_composites h ks' in
          (h2, (k, VNull) :: es)
      end
  end.

Definition sample_getWithMetadata : BulkRead := fun h keys _ =>
  let '(h1, entries) := sample_composites h (requested h keys) in
  let '(h2, l) := alloc h1 (CMap entries) in
  (h2, Resolves (VRef l)).

Definition sample_store : StoreObject :=
  {| get := Callable sample_get; getWithMetadata := Callable sample_getWithMetadata |}.

(** A store whose reads fail: the value-only read rejects, the combined
    read throws before returning a promise. *)
Definition too_many_keys : JsVal := VError (ErrorNew "too many keys").

Definition failing_store : StoreObject :=
  {| get := Callable (fun h _ _ => (h, Rejects too_many_keys));
     getWithMetadata := Callable (fun h _ _ => (h, Throws too_many_keys)) |}.

(** A store that only has the value-only read, and one that only has the
    combined read. *)
Definition value_only_store : StoreObject :=
  {| get := Callable sample_get; getWithMetadata := NotCallable VUndefined |}.

Definition metadata_only_store : StoreObject :=
  {| get := NotCallable VUndefined; getWithMetadata := Callable sample_getWithMetadata |}.

Definition heap_abc : Heap :=
  {[ 1%positive := CArray [VStr "a"; VStr "b"; VStr "c"] ]}.

Definition heap_empty_keys : Heap := {[ 1%positive := CArray [] ]}.

Definition heap_number_key : Heap :=
  {[ 1%positive := CArray [VNum 1%float; VStr "a"] ]}.

(** The object a fulfilled run hands back, read from the final heap. *)
Definition result_object (r : Run) : option (gmap string JsVal) :=
  match promise r with
  | Fulfilled (VRef l) =>
      match heap_after r !! l with
      | Some (CObject props) => Some props
      | _ => None
      end
  | _ => None
  end.

(** ** Answers of the store that are not [Map]s *)

(** Values [Object.fromEntries] cannot iterate: every primitive but a
    string, an error object, a plain object. *)
Definition not_iterable (h : Heap) (v : JsVal) : bool :=
  match v with
  | VStr _ => false
  | VPrim _ | VError _ => true
  | VRef l => match h !! l with Some (CObject _) => true | _ => false end
  end.

(** Iterables whose first item is not an object: a non-empty string (its
    items are one-character strings), an array that starts with a
    primitive. *)
Definition first_item_not_entry (h : Heap) (v : JsVal) : bool :=
  match v with
  | VStr s => negb (String.eqb s "")
  | VRef l =>
      match h !! l with
      | Some (CArray (VPrim _ :: _)) => true
      | _ => false
      end
  | _ => false
  end.

(** Iterables with no item at all: the empty string, the empty array, the
    empty [Map]. *)
Definition empty_iterable (h : Heap) (v : JsVal) : bool :=
  match v with
  | VStr s => String.eqb s ""
  | VRef l =>
      match h !! l with
      | Some (CArray []) | Some (CMap []) => true
      | _ => false
      end
  | _ => false
  end.

(** Stores for these cases: one that answers [null], one that hands the
    [keys] array back, one whose promise stays pending. *)
Definition null_store : StoreObject :=
  {| get := Callable (fun h _ _ => (h, Resolves VNull));
     getWithMetadata := Callable (fun h _ _ => (h, Resolves VNull)) |}.

Definition echo_store : StoreObject :=
  {| get := Callable (fun h keys _ => (h, Resolves keys));
     getWithMetadata := Callable (fun h keys _ => (h, Resolves keys)) |}.

Definition silent_store : StoreObject :=
  {| get := Callable (fun h _ _ => (h, NeverSettles));
     getWithMetadata := Callable (fun h _ _ => (h, NeverSettles)) |}.

(** A store that tells what it was given: each read looks up the [type]
    property of the options object it receives and rejects with it. *)
Definition read_type (h : Heap) (options : JsVal) : JsVal :=
  match options with
  | VRef o =>
      match h !! o with
      | Some (CObject props) => default VUndefined (props !! "type")
      | _ => VUndefined
      end
  | _ => VUndefined
  end.

Definition telltale_read : BulkRead :=
  fun h _ options => (h, Rejects (read_type h options)).

Definition telltale_store : StoreObject :=
  {| get := Callable telltale_read; getWithMetadata := Callable telltale_read |}.

(** The sample store with its two reads exchanged. *)
Definition swapped_sample_store : StoreObject :=
  {| get := Callable sample_getWithMetadata; getWithMetadata := Callable sample_get |}.

(** ** The scenarios of the specification *)

(** Store [{"a": "1", "b": "2"}], keys [["a", "b", "c"]], value-only. *)
Example scenario_values :
  result_object
    <$> kv_bulk_get heap_abc (KvObject sample_store) (VRef 1) (VStr "text")
          (VBool false)
  = Some (Some {[ "a" := VStr "1"; "b" := VStr "2"; "c" := VNull ]}).
Proof. vm_compute. reflexivity. Qed.

(** Same store and keys, with metadata: the composites are the objects
    the store allocated (locations 3 and 4). *)
Example scenario_metadata :
  (λ r, (result_object r, heap_after r !! 3%positive, heap_after r !! 4%positive))
    <$> kv_bulk_get heap_abc (KvObject sample_store) (VRef 1) (VStr "text")
          (VBool true)
  = Some (Some {[ "a" := VRef 3; "b" := VRef 4; "c" := VNull ]},
          Some (CObject {[ "value" := VStr "1"; "metadata" := VStr "M_a" ]}),
          Some (CObject {[ "value" := VStr "2"; "metadata" := VStr "M_b" ]})).
Proof. vm_compute. reflexivity. Qed.

(** Both kinds of store failure end in a rejection with the store's value. *)
Example scenario_failures :
  promise <$> kv_bulk_get heap_abc (KvObject failing_store) (VRef 1) VUndefined
                (VBool false)
  = Some (Rejected too_many_keys)
  ∧ promise <$> kv_bulk_get heap_abc (KvObject failing_store) (VRef 1) VUndefined
                  (VBool true)
    = Some (Rejected too_many_keys).
Proof. split; vm_compute; reflexivity. Qed.

(** ** Basic facts about the heap and the language operations *)

Section heap_facts.
Context (h : gmap positive Cell) (c : Cell).

Lemma alloc_fresh : (alloc h c).2 ∉ dom h.
Proof. apply is_fresh. Qed.

Lemma alloc_lookup_new : (alloc h c).1 !! (alloc h c).2 = Some c.
Proof. apply lookup_insert_eq. Qed.

Lemma alloc_lookup_old (l : positive) :
  l ∈ dom h → (alloc h c).1 !! l = h !! l.
Proof.
  intros Hl. cbn. apply lookup_insert_ne.
  intros <-. by apply alloc_fresh.
Qed.
End heap_facts.

Lemma ToBoolean_default_false (withMetadata : JsVal) :
  ToBoolean (default_param (VBool false) withMetadata) = ToBoolean withMetadata.
Proof. by destruct withMetadata as [[]| |]. Qed.

Lemma default_param_defined (dflt arg : JsVal) :
  arg ≠ VUndefined → default_param dflt arg = arg.
Proof. by destruct arg as [[]| |]. Qed.

Lemma valid_store_callable (kv : KvArg) :
  valid_store kv = true ↔ ∃ f, GetMember kv MGet = Callable f.
Proof.
  unfold valid_store. split.
  - intros [_ Hf]%andb_true_iff.
    destruct (GetMember kv MGet) as [|f]; [done | by exists f].
  - intros [f Hf]. destruct kv as [p|o]; [discriminate Hf|].
    cbn in *. by rewrite Hf.
Qed.

(** Adding entries one after the other is [list_to_map] on the reversed
    list: the last binding of a key is the one that stays. *)
Lemma add_entries_list_to_map (entries : list (string * JsVal))
    (o : gmap string JsVal) :
  add_entries entries o = list_to_map (reverse entries) ∪ o.
Proof.
  unfold add_entries. revert o.
  induction entries as [|[k v] es IH]; intros o; cbn [foldl fst snd].
  - change (reverse (@nil (string * JsVal))) with (@nil (string * JsVal)).
    cbn. by rewrite (left_id_L ∅ (∪)).
  - rewrite IH, reverse_cons, list_to_map_app. cbn [list_to_map foldr uncurry].
    rewrite insert_empty, <-(assoc_L (∪)).
    by rewrite <-insert_union_singleton_l.
Qed.

Lemma dom_add_entries (entries : list (string * JsVal)) :
  dom (add_entries entries ∅) = list_to_set entries.*1.
Proof.
  rewrite add_entries_list_to_map, (right_id_L ∅ (∪)), dom_list_to_map_L.
  rewrite fmap_reverse. apply set_eq. intros k.
  by rewrite !elem_of_list_to_set, elem_of_reverse.
Qed.

Lemma lookup_add_entries (entries : list (string * JsVal)) (k : string) (v : JsVal) :
  NoDup entries.*1 →
  add_entries entries ∅ !! k = Some v ↔ (k, v) ∈ entries.
Proof.
  intros Hnd. rewrite add_entries_list_to_map, (right_id_L ∅ (∪)).
  rewrite <-elem_of_list_to_map, elem_of_reverse; [done|].
  by rewrite fmap_reverse, reverse_Permutation.
Qed.

(** ** Unfolding [kv_bulk_get] *)

Lemma kv_bulk_get_invalid_store (h : gmap positive Cell) (kv : KvArg)
    (keys type withMetadata : JsVal) :
  valid_store kv = false →
  kv_bulk_get h kv keys type withMetadata
  = Some {| heap_after := h; calls := []; promise := Rejected InvalidStoreHandle |}.
Proof.
  unfold valid_store, kv_bulk_get. intros Hv.
  by rewrite <-negb_andb, Hv.
Qed.

Lemma kv_bulk_get_not_array (h : gmap positive Cell) (kv : KvArg)
    (keys type withMetadata : JsVal) :
  valid_store kv = true →
  Array_isArray h keys = false →
  kv_bulk_get h kv keys type withMetadata
  = Some {| heap_after := h; calls := []; promise := Rejected InvalidKeyList |}.
Proof.
  unfold valid_store, kv_bulk_get. intros Hv Ha.
  by rewrite <-negb_andb, Hv, Ha.
Qed.

Lemma kv_bulk_get_guards_passed (h : gmap positive Cell) (kv : KvArg)
    (keys type withMetadata : JsVal) :
  valid_store kv = true →
  Array_isArray h keys = true →
  kv_bulk_get h kv keys type withMetadata
  = read_and_reshape h kv (selected_method withMetadata) keys
      (default_param (VStr "text") type).
Proof.
  unfold valid_store, kv_bulk_get, selected_method. intros Hv Ha.
  rewrite <-negb_andb, Hv, Ha, ToBoolean_default_false. cbn.
  by destruct (ToBoolean withMetadata).
Qed.

Lemma call_member_callable (h : gmap positive Cell) (kv : KvArg) (m : Method)
    (f : BulkRead) (keys type : JsVal) :
  GetMember kv m = Callable f →
  call_member h kv m keys type
  = ((f (options_object h type).1 keys (VRef (options_object h type).2)).1,
     [ {| call_method := m; call_keys := keys;
          call_options := VRef (options_object h type).2 |} ],
     (f (options_object h type).1 keys (VRef (options_object h type).2)).2).
Proof.
  unfold call_member. intros ->.
  destruct (options_object h type) as [h1 o]. cbn.
  by destruct (f h1 keys (VRef o)).
Qed.

Lemma call_member_not_callable (h : gmap positive Cell) (kv : KvArg) (m : Method)
    (v keys type : JsVal) :
  GetMember kv m = NotCallable v →
  call_member h kv m keys type
  = (h, [], Throws (VError (TypeError NotAFunction))).
Proof. unfold call_member. by intros ->. Qed.

(** The run of [kv_bulk_get] once both guards are passed and the selected
    member is a function, by the way the awaited call settles. *)
Section after_the_guards.
Context (h : gmap positive Cell) (kv : KvArg) (f : BulkRead).
Context (keys type withMetadata : JsVal).

Let ty := default_param (VStr "text") type.
Let h1 := (options_object h ty).1.
Let o := (options_object h ty).2.
Let the_call :=
  {| call_method := selected_method withMetadata;
     call_keys := keys; call_options := VRef o |}.

Hypothesis store_ok : valid_store kv = true.
Hypothesis keys_ok : Array_isArray h keys = true.
Hypothesis member_ok : GetMember kv (selected_method withMetadata) = Callable f.

Lemma kv_bulk_get_store_failed (e : JsVal) :
  (f h1 keys (VRef o)).2 = Throws e ∨ (f h1 keys (VRef o)).2 = Rejects e →
  kv_bulk_get h kv keys type withMetadata
  = Some {| heap_after := (f h1 keys (VRef o)).1;
            calls := [the_call]; promise := Rejected e |}.
Proof.
  intros Hs. rewrite kv_bulk_get_guards_passed by done.
  unfold read_and_reshape.
  rewrite (call_member_callable _ _ _ _ _ _ member_ok).
  fold ty h1 o the_call. by destruct Hs as [-> | ->].
Qed.

Lemma kv_bulk_get_store_resolved (map : JsVal) :
  (f h1 keys (VRef o)).2 = Resolves map →
  kv_bulk_get h kv keys type withMetadata
  = match Object_fromEntries (f h1 keys (VRef o)).1 map with
    | Some (h3, Normal v) =>
        Some {| heap_after := h3; calls := [the_call]; promise := Fulfilled v |}
    | Some (h3, Throw e) =>
        Some {| heap_after := h3; calls := [the_call]; promise := Rejected e |}
    | None => None
    end.
Proof.
  intros Hs. rewrite kv_bulk_get_guards_passed by done.
  unfold read_and_reshape.
  rewrite (call_member_callable _ _ _ _ _ _ member_ok).
  fold ty h1 o the_call. by rewrite Hs.
Qed.

Lemma kv_bulk_get_store_pending :
  (f h1 keys (VRef o)).2 = NeverSettles →
  kv_bulk_get h kv keys type withMetadata
  = Some {| heap_after := (f h1 keys (VRef o)).1;
            calls := [the_call]; promise := Pending |}.
Proof.
  intros Hs. rewrite kv_bulk_get_guards_passed by done.
  unfold read_and_reshape.
  rewrite (call_member_callable _ _ _ _ _ _ member_ok).
  fold ty h1 o the_call. by rewrite Hs.
Qed.

(** The store answered with a [Map]: the result is a new plain object
    with one property per entry. *)
Lemma kv_bulk_get_store_map (h2 : gmap positive Cell) (m : positive)
    (entries : list (string * JsVal)) :
  f h1 keys (VRef o) = (h2, Resolves (VRef m)) →
  h2 !! m = Some (CMap entries) →
  kv_bulk_get h kv keys type withMetadata
  = Some {| heap_after := (alloc h2 (CObject (add_entries entries ∅))).1;
            calls := [the_call];
            promise :=
              Fulfilled (VRef (alloc h2 (CObject (add_entries entries ∅))).2) |}.
Proof.
  intros Hf Hm. rewrite (kv_bulk_get_store_resolved (VRef m)) by by rewrite Hf.
  rewrite Hf. cbn [fst Object_fromEntries]. by rewrite Hm.
Qed.
End after_the_guards.

Lemma result_object_alloc (h2 : gmap positive Cell) (cs : list StoreCall)
    (props : gmap string JsVal) :
  result_object
    {| heap_after := (alloc h2 (CObject props)).1; calls := cs;
       promise := Fulfilled (VRef (alloc h2 (CObject props)).2) |}
  = Some props.
Proof.
  unfold result_object. cbn [promise heap_after].
  by rewrite alloc_lookup_new.
Qed.

(** ** The value-only path *)

(** C1.  The store's value-only read is a function, [keys] is an array and
    [withMetadata] is false (or omitted).  When the read answers with a
    [Map], [kv_bulk_get] fulfils with a plain object whose set of keys is
    exactly the set of keys of that [Map], and which maps every key to the
    very value the [Map] holds for it, [null] included.  The statement
    asks for an array only, so it covers every array of strings. *)
Theorem kv_bulk_get_values_pass_through
    (h : gmap positive Cell) (s : StoreObject) (f : BulkRead)
    (keys type withMetadata : JsVal)
    (h2 : gmap positive Cell) (m : positive) (entries : list (string * JsVal)) :
  get s = Callable f →
  Array_isArray h keys = true →
  ToBoolean withMetadata = false →
  f (options_object h (default_param (VStr "text") type)).1 keys
    (VRef (options_object h (default_param (VStr "text") type)).2)
  = (h2, Resolves (VRef m)) →
  h2 !! m = Some (CMap entries) →
  NoDup entries.*1 →
  ∃ (r : Run) (props : gmap string JsVal),
    kv_bulk_get h (KvObject s) keys type withMetadata = Some r
    ∧ result_object r = Some props
    ∧ dom props = list_to_set entries.*1
    ∧ ∀ k v, props !! k = Some v ↔ (k, v) ∈ entries.
Proof.
  intros Hget Harr Hwm Hf Hm Hnd.
  eexists _, (add_entries entries ∅). split; [|split; [|split]].
  - eapply kv_bulk_get_store_map; [| done | | done | done].
    + apply valid_store_callable. by exists f.
    + unfold selected_method. by rewrite Hwm.
  - apply result_object_alloc.
  - apply dom_add_entries.
  - intros k v. by apply lookup_add_entries.
Qed.

Lemma kv_bulk_get_values_pass_through_witness :
  ∃ (r : Run) (props : gmap string JsVal),
    kv_bulk_get heap_abc (KvObject sample_store) (VRef 1) (VStr "text") (VBool false)
    = Some r
    ∧ result_object r = Some props
    ∧ dom props = list_to_set [("a", VStr "1"); ("b", VStr "2"); ("c", VNull)].*1
    ∧ ∀ k v, props !! k = Some v
             ↔ (k, v) ∈ [("a", VStr "1"); ("b", VStr "2"); ("c", VNull)].
Proof.
  eapply (kv_bulk_get_values_pass_through heap_abc sample_store sample_get
            (VRef 1) (VStr "text") (VBool false)).
  - reflexivity.
  - reflexivity.
  - reflexivity.
  - vm_compute. reflexivity.
  - vm_compute. reflexivity.
  - apply (bool_decide_unpack _). vm_compute. exact I.
Defined.

(** ** The combined value and metadata path *)

(** C2.  The store's value-only read is a function (so the handle is
    accepted), [keys] is an array and [withMetadata] is true.  When the
    combined read answers with a [Map], [kv_bulk_get] fulfils with a plain
    object that maps every key of that [Map] to the very entry the [Map]
    holds for it; an entry that is a [{value, metadata}] object is the same
    object, and its fields are as the store left them. *)
Theorem kv_bulk_get_composites_pass_through
    (h : gmap positive Cell) (s : StoreObject) (f g : BulkRead)
    (keys type withMetadata : JsVal)
    (h2 : gmap positive Cell) (m : positive) (entries : list (string * JsVal)) :
  get s = Callable f →
  getWithMetadata s = Callable g →
  Array_isArray h keys = true →
  ToBoolean withMetadata = true →
  g (options_object h (default_param (VStr "text") type)).1 keys
    (VRef (options_object h (default_param (VStr "text") type)).2)
  = (h2, Resolves (VRef m)) →
  h2 !! m = Some (CMap entries) →
  NoDup entries.*1 →
  ∃ (r : Run) (props : gmap string JsVal),
    kv_bulk_get h (KvObject s) keys type withMetadata = Some r
    ∧ result_object r = Some props
    ∧ (∀ k v, (k, v) ∈ entries → props !! k = Some v)
    ∧ (∀ k c fields, (k, VRef c) ∈ entries →
         h2 !! c = Some (CObject fields) →
         props !! k = Some (VRef c)
         ∧ heap_after r !! c = Some (CObject fields)).
Proof.
  intros Hget Hgwm Harr Hwm Hg Hm Hnd.
  eexists _, (add_entries entries ∅).
  split; [|split; [|split]].
  - eapply kv_bulk_get_store_map; [| done | | done | done].
    + apply valid_store_callable. by exists f.
    + unfold selected_method. by rewrite Hwm.
  - apply result_object_alloc.
  - intros k v Hin. by apply lookup_add_entries.
  - intros k c fields Hin Hc. split; [by apply lookup_add_entries|].
    cbn [heap_after]. rewrite alloc_lookup_old; [done|].
    apply elem_of_dom. by rewrite Hc.
Qed.

Lemma kv_bulk_get_composites_pass_through_witness :
  ∃ (r : Run) (props : gmap string JsVal),
    kv_bulk_get heap_abc (KvObject sample_store) (VRef 1) (VStr "text") (VBool true)
    = Some r
    ∧ result_object r = Some props
    ∧ (∀ k v, (k, v) ∈ [("a", VRef 3); ("b", VRef 4); ("c", VNull)] →
         props !! k = Some v)
    ∧ (∀ k c fields,
         (k, VRef c) ∈ [("a", VRef 3); ("b", VRef 4); ("c", VNull)] →
         (sample_getWithMetadata (options_object heap_abc (VStr "text")).1
            (VRef 1) (VRef 2)).1 !! c = Some (CObject fields) →
         props !! k = Some (VRef c)
         ∧ heap_after r !! c = Some (CObject fields)).
Proof.
  eapply (kv_bulk_get_composites_pass_through heap_abc sample_store
            sample_get sample_getWithMetadata (VRef 1) (VStr "text") (VBool true)
            _ 5%positive).
  - reflexivity.
  - reflexivity.
  - reflexivity.
  - reflexivity.
  - vm_compute. reflexivity.
  - vm_compute. reflexivity.
  - apply (bool_decide_unpack _). vm_compute. exact I.
Defined.

(** ** Failures of the store *)

(** C3.  Both guards are passed and the selected read is a function.  When
    the awaited call throws or rejects with [e], the promise of
    [kv_bulk_get] is rejected with that same [e], after exactly one call,
    and the heap is the one the store left: no result object was built.
    Conversely a fulfilled promise means the awaited call resolved. *)
Theorem kv_bulk_get_propagates_store_failure
    (h : gmap positive Cell) (kv : KvArg) (f : BulkRead)
    (keys type withMetadata e : JsVal) :
  valid_store kv = true →
  Array_isArray h keys = true →
  GetMember kv (selected_method withMetadata) = Callable f →
  let h1 := (options_object h (default_param (VStr "text") type)).1 in
  let o := (options_object h (default_param (VStr "text") type)).2 in
  ((f h1 keys (VRef o)).2 = Throws e ∨ (f h1 keys (VRef o)).2 = Rejects e →
   kv_bulk_get h kv keys type withMetadata
   = Some {| heap_after := (f h1 keys (VRef o)).1;
             calls := [ {| call_method := selected_method withMetadata;
                           call_keys := keys; call_options := VRef o |} ];
             promise := Rejected e |})
  ∧ (∀ r v, kv_bulk_get h kv keys type withMetadata = Some r →
            promise r = Fulfilled v →
            ∃ map, (f h1 keys (VRef o)).2 = Resolves map).
Proof.
  intros Hv Ha Hm h1 o. split.
  - by apply kv_bulk_get_store_failed.
  - intros r v Hr Hp.
    destruct (f h1 keys (VRef o)).2 as [e'|map|e'|] eqn:Hs.
    + rewrite (kv_bulk_get_store_failed _ _ _ _ _ _ Hv Ha Hm e') in Hr
        by (left; exact Hs).
      by simplify_eq.
    + by exists map.
    + rewrite (kv_bulk_get_store_failed _ _ _ _ _ _ Hv Ha Hm e') in Hr
        by (right; exact Hs).
      by simplify_eq.
    + rewrite (kv_bulk_get_store_pending _ _ _ _ _ _ Hv Ha Hm Hs) in Hr.
      by simplify_eq.
Qed.

Lemma kv_bulk_get_propagates_store_failure_witness :
  kv_bulk_get heap_abc (KvObject failing_store) (VRef 1) VUndefined VUndefined
  = Some {| heap_after := (options_object heap_abc (VStr "text")).1;
            calls := [ {| call_method := MGet; call_keys := VRef 1;
                          call_options := VRef 2 |} ];
            promise := Rejected too_many_keys |}.
Proof.
  destruct (kv_bulk_get_propagates_store_failure heap_abc (KvObject failing_store)
              (λ h _ _, (h, Rejects too_many_keys))
              (VRef 1) VUndefined VUndefined too_many_keys) as [Hfail _].
  - reflexivity.
  - reflexivity.
  - reflexivity.
  - apply Hfail. right. reflexivity.
Defined.

(** ** The guards *)

(** C4, as amended.  The store handle passes the first guard and [keys] is
    not an array: the promise is rejected with the key-list error, nothing
    is called and the heap is untouched, whatever [type] and
    [withMetadata] are. *)
Theorem kv_bulk_get_rejects_non_array
    (h : gmap positive Cell) (kv : KvArg) (keys type withMetadata : JsVal) :
  valid_store kv = true →
  Array_isArray h keys = false →
  kv_bulk_get h kv keys type withMetadata
  = Some {| heap_after := h; calls := []; promise := Rejected InvalidKeyList |}.
Proof. apply kv_bulk_get_not_array. Qed.

Lemma kv_bulk_get_rejects_non_array_witness :
  kv_bulk_get ∅ (KvObject sample_store) (VStr "a") (VStr "json") (VBool true)
  = Some {| heap_after := ∅; calls := []; promise := Rejected InvalidKeyList |}.
Proof.
  apply (kv_bulk_get_rejects_non_array ∅ (KvObject sample_store) (VStr "a")
           (VStr "json") (VBool true)).
  - reflexivity.
  - reflexivity.
Defined.

(** C4, as stated, fails: with a missing store and a string for [keys] the
    first guard fires, and the error is the store-handle one. *)
Lemma kv_bulk_get_non_array_missing_store :
  Array_isArray ∅ (VStr "a") = false
  ∧ kv_bulk_get ∅ (KvPrim PNull) (VStr "a") VUndefined VUndefined
    = Some {| heap_after := ∅; calls := [];
              promise := Rejected InvalidStoreHandle |}
  ∧ Rejected InvalidStoreHandle ≠ Rejected InvalidKeyList.
Proof. split; [reflexivity | split; [reflexivity | discriminate]]. Qed.

(** C5.  The store is [null] or [undefined], or its [get] member is not a
    function: the promise is rejected with the store-handle error, nothing
    is called and the heap is untouched, whatever [keys], [type] and
    [withMetadata] are. *)
Theorem kv_bulk_get_rejects_invalid_store
    (h : gmap positive Cell) (kv : KvArg) (keys type withMetadata : JsVal) :
  kv = KvPrim PNull ∨ kv = KvPrim PUndefined
  ∨ typeof_function (GetMember kv MGet) = false →
  kv_bulk_get h kv keys type withMetadata
  = Some {| heap_after := h; calls := []; promise := Rejected InvalidStoreHandle |}.
Proof.
  intros Hkv. apply kv_bulk_get_invalid_store. unfold valid_store.
  destruct Hkv as [-> | [-> | ->]]; [done | done | apply andb_false_r].
Qed.

Lemma kv_bulk_get_rejects_invalid_store_witness :
  kv_bulk_get heap_abc (KvObject metadata_only_store) (VRef 1) (VStr "text")
    (VBool true)
  = Some {| heap_after := heap_abc; calls := [];
            promise := Rejected InvalidStoreHandle |}.
Proof.
  apply (kv_bulk_get_rejects_invalid_store heap_abc (KvObject metadata_only_store)
           (VRef 1) (VStr "text") (VBool true)).
  right. right. reflexivity.
Defined.

(** C6, as amended.  On a store handle that passes the first guard:
    - if [keys] is not an array, the promise is rejected with the key-list
      error, before any store call and with the heap untouched;
    - if [keys] is an array, whatever its elements are, the key-list error
      is not raised.  The elements are not inspected: the heap handed to
      the selected read is the caller's heap plus the options object, so
      the array is the caller's, element for element.  When the selected
      member is a function it is called once with that array and the run
      is the one its answer dictates; when it is not a function (on the
      metadata path only) the promise is rejected with the engine's error
      for calling a non-function, with no call. *)
Theorem kv_bulk_get_checks_array_only
    (h : gmap positive Cell) (kv : KvArg) (keys type withMetadata : JsVal) :
  valid_store kv = true →
  let o := fresh (dom h) in
  let h1 := <[o := CObject {[ "type" := default_param (VStr "text") type ]}]> h in
  let the_call :=
    {| call_method := selected_method withMetadata;
       call_keys := keys; call_options := VRef o |} in
  (Array_isArray h keys = false →
   kv_bulk_get h kv keys type withMetadata
   = Some {| heap_after := h; calls := []; promise := Rejected InvalidKeyList |})
  ∧ (Array_isArray h keys = true →
     (∀ k, keys = VRef k → h1 !! k = h !! k)
     ∧ match GetMember kv (selected_method withMetadata) with
       | NotCallable _ =>
           ToBoolean withMetadata = true
           ∧ kv_bulk_get h kv keys type withMetadata
             = Some {| heap_after := h; calls := [];
                       promise := Rejected (VError (TypeError NotAFunction)) |}
       | Callable f =>
           kv_bulk_get h kv keys type withMetadata
           = match (f h1 keys (VRef o)).2 with
             | Throws e | Rejects e =>
                 Some {| heap_after := (f h1 keys (VRef o)).1;
                         calls := [the_call]; promise := Rejected e |}
             | NeverSettles =>
                 Some {| heap_after := (f h1 keys (VRef o)).1;
                         calls := [the_call]; promise := Pending |}
             | Resolves map =>
                 match Object_fromEntries (f h1 keys (VRef o)).1 map with
                 | Some (h3, Normal v) =>
                     Some {| heap_after := h3; calls := [the_call];
                             promise := Fulfilled v |}
                 | Some (h3, Throw e) =>
                     Some {| heap_after := h3; calls := [the_call];
                             promise := Rejected e |}
                 | None => None
                 end
             end
       end).
Proof.
  intros Hv o h1 the_call. split; intros Ha.
  - by apply kv_bulk_get_not_array.
  - split.
    + intros k ->. unfold h1. apply lookup_insert_ne. intros Hk.
      apply (is_fresh (dom h)). fold o. rewrite Hk. apply elem_of_dom.
      unfold Array_isArray in Ha.
      destruct (h !! k) as [cell|]; [by exists cell | discriminate Ha].
    + rewrite kv_bulk_get_guards_passed by done. unfold read_and_reshape.
      destruct (GetMember kv (selected_method withMetadata)) as [v|f] eqn:Hm.
      * rewrite (call_member_not_callable _ _ _ v) by done. split; [|done].
        unfold selected_method in Hm.
        destruct (ToBoolean withMetadata); [done|].
        apply valid_store_callable in Hv as [f Hf]. congruence.
      * rewrite (call_member_callable _ _ _ _ _ _ Hm).
        change (options_object h (default_param (VStr "text") type)).1 with h1.
        change (options_object h (default_param (VStr "text") type)).2 with o.
        fold the_call. by destruct (f h1 keys (VRef o)).2.
Qed.

Lemma kv_bulk_get_checks_array_only_witness :
  ∃ r, kv_bulk_get heap_number_key (KvObject sample_store) (VRef 1)
         (VStr "text") (VBool false) = Some r
       ∧ calls r = [ {| call_method := MGet; call_keys := VRef 1;
                        call_options := VRef 2 |} ]
       ∧ heap_after r !! 1%positive
         = Some (CArray [VNum 1%float; VStr "a"])
       ∧ promise r = Fulfilled (VRef 4).
Proof.
  destruct (kv_bulk_get_checks_array_only heap_number_key (KvObject sample_store)
              (VRef 1) (VStr "text") (VBool false)) as [_ Harr].
  - reflexivity.
  - destruct Harr as [_ Hrun]; [reflexivity|].
    cbn [GetMember selected_method ToBoolean ToBoolean_prim sample_store get]
      in Hrun.
    rewrite Hrun. vm_compute. eexists.
    split; [reflexivity|]. split; [reflexivity|]. split; reflexivity.
Defined.

(** C6, as stated, fails: [[1, "a"]] is not an array of strings, yet on the
    sample store the read is issued with it and the promise is fulfilled. *)
Lemma kv_bulk_get_number_element_accepted :
  array_of_strings heap_number_key (VRef 1) = false
  ∧ ∃ r, kv_bulk_get heap_number_key (KvObject sample_store) (VRef 1)
           (VStr "text") (VBool false) = Some r
         ∧ calls r = [ {| call_method := MGet; call_keys := VRef 1;
                          call_options := VRef 2 |} ]
         ∧ promise r = Fulfilled (VRef 4)
         ∧ result_object r = Some {[ "a" := VStr "1" ]}.
Proof.
  split; [reflexivity|]. eexists. split; [vm_compute; reflexivity|].
  split; [reflexivity|]. split; [reflexivity|]. vm_compute. reflexivity.
Qed.

(** C7.  The first guard looks at [kv.get] only, also when [withMetadata]
    is true.  A store with a callable [get] and no callable
    [getWithMetadata] passes the guard; on an array of keys the metadata
    path then fails at the call itself, with the engine's error for
    calling a non-function, and no read is issued.  A store with a
    callable [getWithMetadata] and no callable [get] is rejected with the
    store-handle error, on the metadata path too. *)
Theorem kv_bulk_get_validation_asymmetry
    (h : gmap positive Cell) (f g : BulkRead)
    (missing keys type withMetadata : JsVal) :
  ToBoolean withMetadata = true →
  let value_only := {| get := Callable f; getWithMetadata := NotCallable missing |} in
  let metadata_only := {| get := NotCallable missing; getWithMetadata := Callable g |} in
  valid_store (KvObject value_only) = true
  ∧ (Array_isArray h keys = true →
     kv_bulk_get h (KvObject value_only) keys type withMetadata
     = Some {| heap_after := h; calls := [];
               promise := Rejected (VError (TypeError NotAFunction)) |})
  ∧ valid_store (KvObject metadata_only) = false
  ∧ kv_bulk_get h (KvObject metadata_only) keys type withMetadata
    = Some {| heap_after := h; calls := [];
              promise := Rejected InvalidStoreHandle |}.
Proof.
  intros Hwm value_only metadata_only.
  split; [done|]. split; [|split; [done|]].
  - intros Ha. rewrite kv_bulk_get_guards_passed by done.
    unfold read_and_reshape, selected_method. rewrite Hwm.
    by rewrite (call_member_not_callable _ _ _ missing).
  - by apply kv_bulk_get_invalid_store.
Qed.

Lemma kv_bulk_get_validation_asymmetry_witness :
  kv_bulk_get heap_abc (KvObject value_only_store) (VRef 1) (VStr "text") (VBool true)
  = Some {| heap_after := heap_abc; calls := [];
            promise := Rejected (VError (TypeError NotAFunction)) |}
  ∧ kv_bulk_get heap_abc (KvObject metadata_only_store) (VRef 1) (VStr "text")
      (VBool true)
    = Some {| heap_after := heap_abc; calls := [];
              promise := Rejected InvalidStoreHandle |}.
Proof.
  destruct (kv_bulk_get_validation_asymmetry heap_abc sample_get
              sample_getWithMetadata VUndefined (VRef 1) (VStr "text") (VBool true))
    as (_ & Hvalue & _ & Hmeta).
  - reflexivity.
  - split; [apply Hvalue; reflexivity | exact Hmeta].
Defined.

(** ** Empty batches *)

(** C8.  The store handle passes the first guard and [keys] is the empty
    array.  If the selected read accepts the empty batch and answers with
    an empty [Map], [kv_bulk_get] fulfils with an empty object. *)
Theorem kv_bulk_get_empty_keys
    (h : gmap positive Cell) (kv : KvArg) (f : BulkRead)
    (k : positive) (type withMetadata : JsVal)
    (h2 : gmap positive Cell) (m : positive) :
  valid_store kv = true →
  GetMember kv (selected_method withMetadata) = Callable f →
  h !! k = Some (CArray []) →
  f (options_object h (default_param (VStr "text") type)).1 (VRef k)
    (VRef (options_object h (default_param (VStr "text") type)).2)
  = (h2, Resolves (VRef m)) →
  h2 !! m = Some (CMap []) →
  ∃ r, kv_bulk_get h kv (VRef k) type withMetadata = Some r
       ∧ result_object r = Some ∅.
Proof.
  intros Hv Hm Hk Hf Hmap. eexists. split.
  - eapply kv_bulk_get_store_map; [done | | done | done | done].
    unfold Array_isArray. by rewrite Hk.
  - apply (result_object_alloc h2 _ ∅).
Qed.

Lemma kv_bulk_get_empty_keys_witness :
  ∃ r, kv_bulk_get heap_empty_keys (KvObject sample_store) (VRef 1)
         (VStr "text") (VBool false) = Some r
       ∧ result_object r = Some ∅.
Proof.
  eapply (kv_bulk_get_empty_keys heap_empty_keys (KvObject sample_store)
            sample_get 1%positive (VStr "text") (VBool false) _ 3%positive).
  - reflexivity.
  - reflexivity.
  - reflexivity.
  - vm_compute. reflexivity.
  - vm_compute. reflexivity.
Defined.

(** ** Effects *)

(** [Object.fromEntries] writes to no existing cell: what it returns is a
    reference to a plain object at a location that was not in use, and the
    heap is the old one extended there; when it throws the heap is as it
    was. *)
Lemma Object_fromEntries_frame (h h' : gmap positive Cell) (iterable : JsVal)
    (c : Completion) :
  Object_fromEntries h iterable = Some (h', c) →
  match c with
  | Normal v =>
      ∃ l props, v = VRef l ∧ (l ∉ dom h) ∧ h' = <[l := CObject props]> h
  | Throw e => h' = h
  end.
Proof.
  assert (Halloc : ∀ props,
    ∃ l props', VRef (alloc h (CObject props)).2 = VRef l ∧ (l ∉ dom h)
                ∧ (alloc h (CObject props)).1 = <[l := CObject props']> h).
  { intros props. eexists _, props. split; [done|].
    split; [apply (alloc_fresh h (CObject props)) | done]. }
  unfold Object_fromEntries. intros Hfe.
  destruct iterable as [[| | | |s]|e|m].
  1-4, 6: by injection Hfe as <- <-.
  - destruct (String.eqb s ""); injection Hfe as <- <-; [apply Halloc | done].
  - destruct (h !! m) as [[[|[p|e|l] elems]|entries|props]|]; try discriminate Hfe;
      injection Hfe as <- <-; first [apply Halloc | done].
Qed.

(** Every run is of one of two kinds: it ended before any store call, with
    a rejection that does not depend on [type]; or both guards were passed
    and the selected read, a function, was called once. *)
Lemma kv_bulk_get_inv (h : gmap positive Cell) (kv : KvArg)
    (keys type withMetadata : JsVal) (r : Run) :
  kv_bulk_get h kv keys type withMetadata = Some r →
  let h1 := (options_object h (default_param (VStr "text") type)).1 in
  let o := (options_object h (default_param (VStr "text") type)).2 in
  (∃ e, r = {| heap_after := h; calls := []; promise := Rejected e |}
        ∧ ∀ type', kv_bulk_get h kv keys type' withMetadata = Some r)
  ∨ (∃ f, Array_isArray h keys = true
          ∧ GetMember kv (selected_method withMetadata) = Callable f
          ∧ calls r = [ {| call_method := selected_method withMetadata;
                           call_keys := keys; call_options := VRef o |} ]
          ∧ match (f h1 keys (VRef o)).2 with
            | Resolves map =>
                ∃ c, Object_fromEntries (f h1 keys (VRef o)).1 map
                     = Some (heap_after r, c)
                     ∧ promise r = match c with
                                   | Normal v => Fulfilled v
                                   | Throw e => Rejected e
                                   end
            | Throws e | Rejects e =>
                heap_after r = (f h1 keys (VRef o)).1 ∧ promise r = Rejected e
            | NeverSettles =>
                heap_after r = (f h1 keys (VRef o)).1 ∧ promise r = Pending
            end).
Proof.
  intros Hr h1 o.
  destruct (valid_store kv) eqn:Hv.
  2: { left. exists InvalidStoreHandle.
       rewrite kv_bulk_get_invalid_store in Hr by done.
       injection Hr as <-. split; [done|].
       intros type'. by apply kv_bulk_get_invalid_store. }
  destruct (Array_isArray h keys) eqn:Ha.
  2: { left. exists InvalidKeyList.
       rewrite kv_bulk_get_not_array in Hr by done.
       injection Hr as <-. split; [done|].
       intros type'. by apply kv_bulk_get_not_array. }
  destruct (GetMember kv (selected_method withMetadata)) as [v|f] eqn:Hm.
  { left. exists (VError (TypeError NotAFunction)).
    assert (Hany : ∀ type', kv_bulk_get h kv keys type' withMetadata
              = Some {| heap_after := h; calls := [];
                        promise := Rejected (VError (TypeError NotAFunction)) |}).
    { intros type'. rewrite kv_bulk_get_guards_passed by done.
      unfold read_and_reshape.
      by rewrite (call_member_not_callable _ _ _ v). }
    rewrite Hany in Hr. injection Hr as <-. by split. }
  right. exists f. split; [done|]. split; [done|].
  destruct (f h1 keys (VRef o)).2 as [e|map|e|] eqn:Hs.
  - rewrite (kv_bulk_get_store_failed _ _ _ _ _ _ Hv Ha Hm e) in Hr
      by (left; exact Hs).
    by injection Hr as <-.
  - rewrite (kv_bulk_get_store_resolved _ _ _ _ _ _ Hv Ha Hm map Hs) in Hr.
    fold h1 o in Hr.
    destruct (Object_fromEntries _ map) as [[h3 [v|e]]|]; [| |done];
      injection Hr as <-; (split; [done|]); by eexists.
  - rewrite (kv_bulk_get_store_failed _ _ _ _ _ _ Hv Ha Hm e) in Hr
      by (right; exact Hs).
    by injection Hr as <-.
  - rewrite (kv_bulk_get_store_pending _ _ _ _ _ _ Hv Ha Hm Hs) in Hr.
    by injection Hr as <-.
Qed.

(** C9.  What a call of [kv_bulk_get] does to the heap.  Either it ends
    before any store call and the heap is as the caller left it; or it
    issues one call, of the selected read, with the caller's [keys]
    reference.  In that case the heap handed to the store is the caller's
    heap plus the options object, at a location that was not in use; and
    the final heap is the heap the store left, plus, when the promise is
    fulfilled, the result object, again at a location that was not in use.
    So the [keys] array is as the caller left it as soon as the store's
    read did not write to it.  The function reads and writes nothing but
    the heap cells named here: the source has no variable outside the
    function body. *)
Theorem kv_bulk_get_frame
    (h : gmap positive Cell) (kv : KvArg) (keys type withMetadata : JsVal)
    (r : Run) :
  kv_bulk_get h kv keys type withMetadata = Some r →
  let ty := default_param (VStr "text") type in
  let h1 := (options_object h ty).1 in
  let o := (options_object h ty).2 in
  (calls r = [] ∧ heap_after r = h ∧ ∃ e, promise r = Rejected e)
  ∨ (∃ f, GetMember kv (selected_method withMetadata) = Callable f
          ∧ calls r = [ {| call_method := selected_method withMetadata;
                           call_keys := keys; call_options := VRef o |} ]
          ∧ (o ∉ dom h)
          ∧ h1 = <[o := CObject {[ "type" := ty ]}]> h
          ∧ (heap_after r = (f h1 keys (VRef o)).1
             ∧ (∀ v, promise r ≠ Fulfilled v)
             ∨ ∃ l props,
                 (l ∉ dom (f h1 keys (VRef o)).1)
                 ∧ heap_after r = <[l := CObject props]> (f h1 keys (VRef o)).1
                 ∧ promise r = Fulfilled (VRef l))
          ∧ (∀ k, keys = VRef k →
               (f h1 keys (VRef o)).1 !! k = h !! k →
               heap_after r !! k = h !! k)).
Proof.
  intros Hr ty h1 o.
  destruct (kv_bulk_get_inv _ _ _ _ _ _ Hr)
    as [(e & -> & _) | (f & Ha & Hm & Hc & Hs)]; [left; eauto|].
  fold ty h1 o in Hc, Hs. right. exists f. split; [done|]. split; [done|].
  split; [apply alloc_fresh|]. split; [done|].
  assert (Hheap :
    heap_after r = (f h1 keys (VRef o)).1 ∧ (∀ v, promise r ≠ Fulfilled v)
    ∨ ∃ l props,
        (l ∉ dom (f h1 keys (VRef o)).1)
        ∧ heap_after r = <[l := CObject props]> (f h1 keys (VRef o)).1
        ∧ promise r = Fulfilled (VRef l)).
  { destruct (f h1 keys (VRef o)).2 as [e|map|e|].
    - left. destruct Hs as [-> ->]. done.
    - destruct Hs as (c & Hfe & ->).
      apply Object_fromEntries_frame in Hfe. destruct c as [v|e].
      + right. destruct Hfe as (l & props & -> & Hl & ->). by exists l, props.
      + left. by rewrite Hfe.
    - left. destruct Hs as [-> ->]. done.
    - left. destruct Hs as [-> ->]. done. }
  split; [done|].
  intros k -> Hk.
  destruct Hheap as [[-> _] | (l & props & Hl & -> & _)]; [done|].
  rewrite lookup_insert_ne; [done|]. intros ->. apply Hl.
  apply elem_of_dom. rewrite Hk.
  unfold Array_isArray in Ha. by destruct (h !! k).
Qed.

Lemma kv_bulk_get_frame_witness :
  ∃ r, kv_bulk_get heap_abc (KvObject sample_store) (VRef 1) (VStr "text")
         (VBool false) = Some r
       ∧ heap_after r !! 1%positive = heap_abc !! 1%positive.
Proof.
  destruct (kv_bulk_get heap_abc (KvObject sample_store) (VRef 1) (VStr "text")
              (VBool false)) as [r|] eqn:Hr;
    [| vm_compute in Hr; discriminate Hr].
  exists r. split; [reflexivity|].
  destruct (kv_bulk_get_frame _ _ _ _ _ _ Hr)
    as [(_ & -> & _) | (f & Hm & _ & _ & _ & _ & Hkeys)]; [reflexivity|].
  apply (Hkeys 1%positive); [reflexivity|].
  injection Hm as <-. vm_compute. reflexivity.
Defined.

(** ** The decode format *)

(** C10.  [type] is never inspected, and it reaches the store as it is.
    Let [sent] be [type] itself, or ["text"] when [type] is [undefined]
    (omitted).  A run that issues no call, which is the case of every
    error the function raises by itself, is the same run for every other
    [type].  At most one call is issued, and a fulfilled promise comes
    after exactly one.  The call issued is [getWithMetadata] when
    [withMetadata] is true and [get] when it is false; the function called
    is that member of [kv], its arguments are the caller's [keys] and a
    new object whose only property is [type], holding [sent]; and the run
    is the one the answer of that very application dictates. *)
Theorem kv_bulk_get_forwards_type
    (h : gmap positive Cell) (kv : KvArg) (keys type withMetadata sent : JsVal)
    (r : Run) :
  kv_bulk_get h kv keys type withMetadata = Some r →
  (type = VUndefined → sent = VStr "text") →
  (type ≠ VUndefined → sent = type) →
  let o := fresh (dom h) in
  let h1 := <[o := CObject {[ "type" := sent ]}]> h in
  (calls r = [] → ∀ type', kv_bulk_get h kv keys type' withMetadata = Some r)
  ∧ (List.length (calls r) ≤ 1)%nat
  ∧ (∀ v, promise r = Fulfilled v → List.length (calls r) = 1%nat)
  ∧ (∀ c, c ∈ calls r →
       call_keys c = keys
       ∧ call_options c = VRef o
       ∧ (o ∉ dom h)
       ∧ (ToBoolean withMetadata = true → call_method c = MGetWithMetadata)
       ∧ (ToBoolean withMetadata = false → call_method c = MGet)
       ∧ ∃ f, GetMember kv (call_method c) = Callable f
              ∧ match (f h1 keys (VRef o)).2 with
                | Resolves map =>
                    ∃ c', Object_fromEntries (f h1 keys (VRef o)).1 map
                          = Some (heap_after r, c')
                          ∧ promise r = match c' with
                                        | Normal v => Fulfilled v
                                        | Throw e => Rejected e
                                        end
                | Throws e | Rejects e =>
                    heap_after r = (f h1 keys (VRef o)).1
                    ∧ promise r = Rejected e
                | NeverSettles =>
                    heap_after r = (f h1 keys (VRef o)).1
                    ∧ promise r = Pending
                end).
Proof.
  intros Hr Hdflt Hsent o h1.
  assert (Hty : default_param (VStr "text") type = sent).
  { destruct type as [[| | | |]| |]; cbn;
      first [by rewrite Hdflt | by rewrite Hsent]. }
  destruct (kv_bulk_get_inv _ _ _ _ _ _ Hr)
    as [(e & -> & Hany) | (f & Ha & Hm & Hc & Hs)].
  - cbn. split; [done|]. split; [lia|]. split; [done|].
    by intros c ?%elem_of_nil.
  - rewrite Hty in Hc, Hs.
    change (options_object h sent).1 with h1 in Hs.
    change (options_object h sent).2 with o in Hc, Hs.
    rewrite Hc. split; [done|]. split; [cbn; lia|]. split; [done|].
    intros c ->%list_elem_of_singleton. cbn [call_keys call_options call_method].
    split; [done|]. split; [done|]. split; [apply is_fresh|].
    unfold selected_method in *.
    split; [by intros ->|]. split; [by intros ->|].
    by exists f.
Qed.

Lemma kv_bulk_get_forwards_type_witness :
  (∃ r, kv_bulk_get heap_abc (KvObject telltale_store) (VRef 1) (VStr "yaml")
          (VBool true) = Some r
        ∧ call_method <$> calls r = [MGetWithMetadata]
        ∧ promise r = Rejected (VStr "yaml"))
  ∧ (∃ r, kv_bulk_get heap_abc (KvObject telltale_store) (VRef 1) VUndefined
            (VBool false) = Some r
          ∧ call_method <$> calls r = [MGet]
          ∧ promise r = Rejected (VStr "text")).
Proof.
  split.
  - destruct (kv_bulk_get heap_abc (KvObject telltale_store) (VRef 1)
                (VStr "yaml") (VBool true)) as [r|] eqn:Hr;
      [| vm_compute in Hr; discriminate Hr].
    exists r. split; [reflexivity|].
    destruct (kv_bulk_get_forwards_type heap_abc (KvObject telltale_store)
                (VRef 1) (VStr "yaml") (VBool true) (VStr "yaml") r Hr)
      as (_ & _ & _ & Hcall); [discriminate | reflexivity |].
    assert (Hc : calls r = [ {| call_method := MGetWithMetadata;
                                call_keys := VRef 1; call_options := VRef 2 |} ]).
    { vm_compute in Hr. by injection Hr as <-. }
    rewrite Hc in Hcall |- *. split; [reflexivity|].
    destruct (Hcall _ (list_elem_of_here _ _))
      as (_ & _ & _ & _ & _ & f & Hf & Hrun).
    injection Hf as <-. exact (proj2 Hrun).
  - destruct (kv_bulk_get heap_abc (KvObject telltale_store) (VRef 1)
                VUndefined (VBool false)) as [r|] eqn:Hr;
      [| vm_compute in Hr; discriminate Hr].
    exists r. split; [reflexivity|].
    destruct (kv_bulk_get_forwards_type heap_abc (KvObject telltale_store)
                (VRef 1) VUndefined (VBool false) (VStr "text") r Hr)
      as (_ & _ & _ & Hcall); [reflexivity | done |].
    assert (Hc : calls r = [ {| call_method := MGet;
                                call_keys := VRef 1; call_options := VRef 2 |} ]).
    { vm_compute in Hr. by injection Hr as <-. }
    rewrite Hc in Hcall |- *. split; [reflexivity|].
    destruct (Hcall _ (list_elem_of_here _ _))
      as (_ & _ & _ & _ & _ & f & Hf & Hrun).
    injection Hf as <-. exact (proj2 Hrun).
Defined.

(** ** Further properties of [kv_bulk_get] *)

(** X1.  A fulfilled promise tells the whole story: the store handle
    passed the first guard, [keys] was an array, the selected member was a
    function, its awaited call resolved, and the value carried is a
    reference to a plain object of the final heap. *)
Theorem kv_bulk_get_fulfilled_inv
    (h : gmap positive Cell) (kv : KvArg) (keys type withMetadata v : JsVal)
    (r : Run) :
  kv_bulk_get h kv keys type withMetadata = Some r →
  promise r = Fulfilled v →
  let h1 := (options_object h (default_param (VStr "text") type)).1 in
  let o := (options_object h (default_param (VStr "text") type)).2 in
  valid_store kv = true
  ∧ Array_isArray h keys = true
  ∧ ∃ f map l props,
      GetMember kv (selected_method withMetadata) = Callable f
      ∧ (f h1 keys (VRef o)).2 = Resolves map
      ∧ v = VRef l
      ∧ heap_after r !! l = Some (CObject props).
Proof.
  intros Hr Hp h1 o.
  assert (Hv : valid_store kv = true).
  { destruct (valid_store kv) eqn:Hv; [done|].
    rewrite kv_bulk_get_invalid_store in Hr by done.
    injection Hr as <-. discriminate Hp. }
  destruct (kv_bulk_get_inv _ _ _ _ _ _ Hr)
    as [(e & -> & _) | (f & Ha & Hm & _ & Hs)]; [discriminate Hp|].
  fold h1 o in Hs. split; [done|]. split; [done|].
  destruct (f h1 keys (VRef o)).2 as [e|map|e|] eqn:Hset.
  - destruct Hs as [_ Hs]. congruence.
  - destruct Hs as (c & Hfe & Hpc).
    apply Object_fromEntries_frame in Hfe.
    destruct c as [v'|e]; [|congruence].
    destruct Hfe as (l & props & -> & _ & Hh).
    exists f, map, l, props. split; [done|]. split; [done|].
    split; [congruence|]. rewrite Hh. apply lookup_insert_eq.
  - destruct Hs as [_ Hs]. congruence.
  - destruct Hs as [_ Hs]. congruence.
Qed.

Lemma kv_bulk_get_fulfilled_inv_witness :
  ∃ r, kv_bulk_get heap_abc (KvObject sample_store) (VRef 1) (VStr "text")
         (VBool false) = Some r
       ∧ valid_store (KvObject sample_store) = true
       ∧ Array_isArray heap_abc (VRef 1) = true
       ∧ ∃ props, heap_after r !! 4%positive = Some (CObject props).
Proof.
  destruct (kv_bulk_get heap_abc (KvObject sample_store) (VRef 1) (VStr "text")
              (VBool false)) as [r|] eqn:Hr;
    [| vm_compute in Hr; discriminate Hr].
  exists r. split; [reflexivity|].
  assert (Hp : promise r = Fulfilled (VRef 4)).
  { vm_compute in Hr. by injection Hr as <-. }
  destruct (kv_bulk_get_fulfilled_inv heap_abc (KvObject sample_store) (VRef 1)
              (VStr "text") (VBool false) (VRef 4) r Hr Hp)
    as (Hv & Ha & f & map & l & props & _ & _ & Hl & Hcell).
  split; [exact Hv|]. split; [exact Ha|].
  exists props. by injection Hl as <-.
Defined.

(** X2.  The errors the function raises before any store call are exactly
    three, and each has its own cause: the store-handle error when the
    handle fails the first guard; the key-list error when the handle
    passes and [keys] is not an array; the engine's error for calling a
    non-function when both guards pass, [withMetadata] is true and
    [getWithMetadata] is not a function.  In all three the heap is left as
    it was.  So on the value-only path a run that passes the two guards
    always reaches the store. *)
Theorem kv_bulk_get_errors_before_call
    (h : gmap positive Cell) (kv : KvArg) (keys type withMetadata : JsVal)
    (r : Run) :
  kv_bulk_get h kv keys type withMetadata = Some r →
  calls r = [] →
  heap_after r = h
  ∧ ((valid_store kv = false ∧ promise r = Rejected InvalidStoreHandle)
     ∨ (valid_store kv = true ∧ Array_isArray h keys = false
        ∧ promise r = Rejected InvalidKeyList)
     ∨ (valid_store kv = true ∧ Array_isArray h keys = true
        ∧ ToBoolean withMetadata = true
        ∧ typeof_function (GetMember kv MGetWithMetadata) = false
        ∧ promise r = Rejected (VError (TypeError NotAFunction)))).
Proof.
  intros Hr Hc.
  destruct (valid_store kv) eqn:Hv.
  2: { rewrite kv_bulk_get_invalid_store in Hr by done.
       injection Hr as <-. split; [done|]. by left. }
  destruct (Array_isArray h keys) eqn:Ha.
  2: { rewrite kv_bulk_get_not_array in Hr by done.
       injection Hr as <-. split; [done|]. right. by left. }
  destruct (kv_bulk_get_inv _ _ _ _ _ _ Hr)
    as [(e & -> & _) | (f & _ & _ & Hc' & _)]; [|congruence].
  split; [done|]. right. right.
  rewrite kv_bulk_get_guards_passed in Hr by done.
  unfold read_and_reshape, selected_method in Hr.
  destruct (ToBoolean withMetadata) eqn:Hwm.
  - destruct (GetMember kv MGetWithMetadata) as [v|f] eqn:Hm.
    + rewrite (call_member_not_callable _ _ _ v) in Hr by done.
      by injection Hr as <-.
    + rewrite (call_member_callable _ _ _ f) in Hr by done.
      destruct (f _ keys _).2 as [?|map|?|]; [naive_solver| |naive_solver..].
      destruct (Object_fromEntries _ map) as [[? [?|?]]|]; naive_solver.
  - apply valid_store_callable in Hv as [f Hm].
    rewrite (call_member_callable _ _ _ f) in Hr by done.
    destruct (f _ keys _).2 as [?|map|?|]; [naive_solver| |naive_solver..].
    destruct (Object_fromEntries _ map) as [[? [?|?]]|]; naive_solver.
Qed.

Lemma kv_bulk_get_errors_before_call_witness :
  heap_after {| heap_after := heap_abc; calls := [];
                promise := Rejected (VError (TypeError NotAFunction)) |}
  = heap_abc
  ∧ ((valid_store (KvObject value_only_store) = false
      ∧ Rejected (VError (TypeError NotAFunction)) = Rejected InvalidStoreHandle)
     ∨ (valid_store (KvObject value_only_store) = true
        ∧ Array_isArray heap_abc (VRef 1) = false
        ∧ Rejected (VError (TypeError NotAFunction)) = Rejected InvalidKeyList)
     ∨ (valid_store (KvObject value_only_store) = true
        ∧ Array_isArray heap_abc (VRef 1) = true
        ∧ ToBoolean (VBool true) = true
        ∧ typeof_function (GetMember (KvObject value_only_store) MGetWithMetadata)
          = false
        ∧ Rejected (VError (TypeError NotAFunction))
          = Rejected (VError (TypeError NotAFunction)))).
Proof.
  apply (kv_bulk_get_errors_before_call heap_abc (KvObject value_only_store)
           (VRef 1) (VStr "text") (VBool true)
           {| heap_after := heap_abc; calls := [];
              promise := Rejected (VError (TypeError NotAFunction)) |}).
  - reflexivity.
  - reflexivity.
Defined.

(** X3.  Both guards are passed and the selected read resolves, but with
    a value that cannot be iterated ([undefined], [null], a boolean, a
    number, an error, a plain object): the promise is rejected with the
    engine's error for a non-iterable, after the one store call, and the
    heap is the one the store left. *)
Theorem kv_bulk_get_answer_not_iterable
    (h : gmap positive Cell) (kv : KvArg) (f : BulkRead)
    (keys type withMetadata answer : JsVal) (h2 : gmap positive Cell) :
  valid_store kv = true →
  Array_isArray h keys = true →
  GetMember kv (selected_method withMetadata) = Callable f →
  f (options_object h (default_param (VStr "text") type)).1 keys
    (VRef (options_object h (default_param (VStr "text") type)).2)
  = (h2, Resolves answer) →
  not_iterable h2 answer = true →
  kv_bulk_get h kv keys type withMetadata
  = Some {| heap_after := h2;
            calls := [ {| call_method := selected_method withMetadata;
                          call_keys := keys;
                          call_options :=
                            VRef (options_object h
                                    (default_param (VStr "text") type)).2 |} ];
            promise := Rejected (VError (TypeError NotIterable)) |}.
Proof.
  intros Hv Ha Hm Hf Hni.
  rewrite (kv_bulk_get_store_resolved _ _ _ _ _ _ Hv Ha Hm answer)
    by by rewrite Hf.
  rewrite Hf. cbn [fst]. unfold not_iterable in Hni. unfold Object_fromEntries.
  destruct answer as [[| | | |s]|e|l]; try done.
  by destruct (h2 !! l) as [[| |]|].
Qed.

Lemma kv_bulk_get_answer_not_iterable_witness :
  kv_bulk_get heap_abc (KvObject null_store) (VRef 1) (VStr "text") (VBool false)
  = Some {| heap_after := (options_object heap_abc (VStr "text")).1;
            calls := [ {| call_method := MGet; call_keys := VRef 1;
                          call_options := VRef 2 |} ];
            promise := Rejected (VError (TypeError NotIterable)) |}.
Proof.
  apply (kv_bulk_get_answer_not_iterable heap_abc (KvObject null_store)
           (λ h _ _, (h, Resolves VNull)) (VRef 1) (VStr "text") (VBool false)
           VNull).
  - reflexivity.
  - reflexivity.
  - reflexivity.
  - reflexivity.
  - reflexivity.
Defined.

(** X4.  Both guards are passed and the selected read resolves with an
    iterable whose first item is not an object, such as a non-empty string
    or an array of strings (the [keys] array handed back, say): the
    promise is rejected with the engine's error for a bad entry, after the
    one store call, and the heap is the one the store left. *)
Theorem kv_bulk_get_answer_not_entries
    (h : gmap positive Cell) (kv : KvArg) (f : BulkRead)
    (keys type withMetadata answer : JsVal) (h2 : gmap positive Cell) :
  valid_store kv = true →
  Array_isArray h keys = true →
  GetMember kv (selected_method withMetadata) = Callable f →
  f (options_object h (default_param (VStr "text") type)).1 keys
    (VRef (options_object h (default_param (VStr "text") type)).2)
  = (h2, Resolves answer) →
  first_item_not_entry h2 answer = true →
  kv_bulk_get h kv keys type withMetadata
  = Some {| heap_after := h2;
            calls := [ {| call_method := selected_method withMetadata;
                          call_keys := keys;
                          call_options :=
                            VRef (options_object h
                                    (default_param (VStr "text") type)).2 |} ];
            promise := Rejected (VError (TypeError NotAnEntryObject)) |}.
Proof.
  intros Hv Ha Hm Hf Hne.
  rewrite (kv_bulk_get_store_resolved _ _ _ _ _ _ Hv Ha Hm answer)
    by by rewrite Hf.
  rewrite Hf. cbn [fst]. unfold first_item_not_entry in Hne.
  unfold Object_fromEntries.
  destruct answer as [[| | | |s]|e|l]; try done.
  - by destruct (String.eqb s "").
  - by destruct (h2 !! l) as [[[|[p|e|l'] elems]| |]|].
Qed.

Lemma kv_bulk_get_answer_not_entries_witness :
  kv_bulk_get heap_abc (KvObject echo_store) (VRef 1) (VStr "text") (VBool true)
  = Some {| heap_after := (options_object heap_abc (VStr "text")).1;
            calls := [ {| call_method := MGetWithMetadata; call_keys := VRef 1;
                          call_options := VRef 2 |} ];
            promise := Rejected (VError (TypeError NotAnEntryObject)) |}.
Proof.
  apply (kv_bulk_get_answer_not_entries heap_abc (KvObject echo_store)
           (λ h keys _, (h, Resolves keys)) (VRef 1) (VStr "text") (VBool true)
           (VRef 1)).
  - reflexivity.
  - reflexivity.
  - reflexivity.
  - reflexivity.
  - reflexivity.
Defined.

(** X5.  Both guards are passed and the selected read resolves with an
    iterable that has no item (the empty string, the empty array, the
    empty [Map]): the promise is fulfilled with a new object that has no
    property. *)
Theorem kv_bulk_get_answer_empty
    (h : gmap positive Cell) (kv : KvArg) (f : BulkRead)
    (keys type withMetadata answer : JsVal) (h2 : gmap positive Cell) :
  valid_store kv = true →
  Array_isArray h keys = true →
  GetMember kv (selected_method withMetadata) = Callable f →
  f (options_object h (default_param (VStr "text") type)).1 keys
    (VRef (options_object h (default_param (VStr "text") type)).2)
  = (h2, Resolves answer) →
  empty_iterable h2 answer = true →
  ∃ r l, kv_bulk_get h kv keys type withMetadata = Some r
         ∧ promise r = Fulfilled (VRef l)
         ∧ (l ∉ dom h2)
         ∧ heap_after r = <[l := CObject ∅]> h2.
Proof.
  intros Hv Ha Hm Hf He.
  rewrite (kv_bulk_get_store_resolved _ _ _ _ _ _ Hv Ha Hm answer)
    by by rewrite Hf.
  rewrite Hf. cbn [fst]. unfold empty_iterable in He.
  unfold Object_fromEntries.
  assert (Hfresh := alloc_fresh h2 (CObject ∅)).
  destruct answer as [[| | | |s]|e|l]; try done.
  - rewrite He. by eexists _, _.
  - destruct (h2 !! l) as [[[|]|[|]|]|]; try done; by eexists _, _.
Qed.

Lemma kv_bulk_get_answer_empty_witness :
  ∃ r l, kv_bulk_get heap_empty_keys (KvObject echo_store) (VRef 1) (VStr "text")
           (VBool false) = Some r
         ∧ promise r = Fulfilled (VRef l)
         ∧ (l ∉ dom (options_object heap_empty_keys (VStr "text")).1)
         ∧ heap_after r
           = <[l := CObject ∅]> (options_object heap_empty_keys (VStr "text")).1.
Proof.
  apply (kv_bulk_get_answer_empty heap_empty_keys (KvObject echo_store)
           (λ h keys _, (h, Resolves keys)) (VRef 1) (VStr "text") (VBool false)
           (VRef 1)).
  - reflexivity.
  - reflexivity.
  - reflexivity.
  - reflexivity.
  - reflexivity.
Defined.

(** X6.  Both guards are passed and the promise of the selected read never
    settles: the promise of [kv_bulk_get] stays pending, one call has been
    issued and no result object is built. *)
Theorem kv_bulk_get_never_settles
    (h : gmap positive Cell) (kv : KvArg) (f : BulkRead)
    (keys type withMetadata : JsVal) (h2 : gmap positive Cell) :
  valid_store kv = true →
  Array_isArray h keys = true →
  GetMember kv (selected_method withMetadata) = Callable f →
  f (options_object h (default_param (VStr "text") type)).1 keys
    (VRef (options_object h (default_param (VStr "text") type)).2)
  = (h2, NeverSettles) →
  kv_bulk_get h kv keys type withMetadata
  = Some {| heap_after := h2;
            calls := [ {| call_method := selected_method withMetadata;
                          call_keys := keys;
                          call_options :=
                            VRef (options_object h
                                    (default_param (VStr "text") type)).2 |} ];
            promise := Pending |}.
Proof.
  intros Hv Ha Hm Hf.
  rewrite (kv_bulk_get_store_pending _ _ _ _ _ _ Hv Ha Hm) by by rewrite Hf.
  by rewrite Hf.
Qed.

Lemma kv_bulk_get_never_settles_witness :
  kv_bulk_get heap_abc (KvObject silent_store) (VRef 1) (VStr "text") (VBool false)
  = Some {| heap_after := (options_object heap_abc (VStr "text")).1;
            calls := [ {| call_method := MGet; call_keys := VRef 1;
                          call_options := VRef 2 |} ];
            promise := Pending |}.
Proof.
  apply (kv_bulk_get_never_settles heap_abc (KvObject silent_store)
           (λ h _ _, (h, NeverSettles)) (VRef 1) (VStr "text") (VBool false)).
  - reflexivity.
  - reflexivity.
  - reflexivity.
  - reflexivity.
Defined.

(** X7.  [withMetadata] counts through its truth value only: two flags
    that are both truthy, or both falsy, give the same run.  So [1] or a
    non-empty string select the combined read as [true] does, and [null],
    [0], the empty string or an omitted flag select the value-only read as
    [false] does. *)
Theorem kv_bulk_get_flag_truthiness
    (h : gmap positive Cell) (kv : KvArg) (keys type flag flag' : JsVal) :
  ToBoolean flag = ToBoolean flag' →
  kv_bulk_get h kv keys type flag = kv_bulk_get h kv keys type flag'.
Proof.
  intros Hb. unfold kv_bulk_get.
  by rewrite !ToBoolean_default_false, Hb.
Qed.

Lemma kv_bulk_get_flag_truthiness_witness :
  kv_bulk_get heap_abc (KvObject sample_store) (VRef 1) (VStr "text")
    (VNum 1%float)
  = kv_bulk_get heap_abc (KvObject sample_store) (VRef 1) (VStr "text")
      (VBool true).
Proof.
  apply (kv_bulk_get_flag_truthiness heap_abc (KvObject sample_store) (VRef 1)
           (VStr "text") (VNum 1%float) (VBool true)).
  reflexivity.
Defined.

(** X8.  The two paths differ in the member they call and in nothing
    else: with the two reads of a store exchanged and the flag negated,
    the final heap, the promise and the arguments of the call are the
    same.  The combined path does no processing of its own. *)
Theorem kv_bulk_get_paths_symmetric
    (h : gmap positive Cell) (f g : BulkRead)
    (keys type flag flag' : JsVal) :
  ToBoolean flag = true →
  ToBoolean flag' = false →
  let s := {| get := Callable f; getWithMetadata := Callable g |} in
  let s' := {| get := Callable g; getWithMetadata := Callable f |} in
  match kv_bulk_get h (KvObject s) keys type flag,
        kv_bulk_get h (KvObject s') keys type flag' with
  | Some r, Some r' =>
      heap_after r = heap_after r'
      ∧ promise r = promise r'
      ∧ call_keys <$> calls r = call_keys <$> calls r'
      ∧ call_options <$> calls r = call_options <$> calls r'
      ∧ call_method <$> calls r = (λ _, MGetWithMetadata) <$> calls r'
  | None, None => True
  | _, _ => False
  end.
Proof.
  intros Hb Hb' s s'.
  destruct (Array_isArray h keys) eqn:Ha.
  - rewrite !kv_bulk_get_guards_passed by done.
    unfold read_and_reshape, selected_method. rewrite Hb, Hb'.
    rewrite (call_member_callable h (KvObject s) _ g) by done.
    rewrite (call_member_callable h (KvObject s') _ g) by done.
    destruct (g _ keys _).2 as [e|map|e|]; [done| |done..].
    by destruct (Object_fromEntries _ map) as [[h3 [v|e]]|].
  - by rewrite !kv_bulk_get_not_array by done.
Qed.

Lemma kv_bulk_get_paths_symmetric_witness :
  match kv_bulk_get heap_abc (KvObject sample_store) (VRef 1) (VStr "text")
          (VBool true),
        kv_bulk_get heap_abc (KvObject swapped_sample_store) (VRef 1) (VStr "text")
          (VBool false) with
  | Some r, Some r' =>
      heap_after r = heap_after r'
      ∧ promise r = promise r'
      ∧ call_keys <$> calls r = call_keys <$> calls r'
      ∧ call_options <$> calls r = call_options <$> calls r'
      ∧ call_method <$> calls r = (λ _, MGetWithMetadata) <$> calls r'
  | None, None => True
  | _, _ => False
  end.
Proof.
  apply (kv_bulk_get_paths_symmetric heap_abc sample_get sample_getWithMetadata
           (VRef 1) (VStr "text") (VBool true) (VBool false)).
  - reflexivity.
  - reflexivity.
Defined.

(** X9.  Reshaping is a copy that loses nothing.  When the selected read
    resolves with a [Map], the object the promise carries is not that
    [Map]: it is a new object, the [Map] is still in the heap with the
    entries it had, and the object has as many properties as the [Map]
    has entries. *)
Theorem kv_bulk_get_copies_the_map
    (h : gmap positive Cell) (kv : KvArg) (f : BulkRead)
    (keys type withMetadata : JsVal)
    (h2 : gmap positive Cell) (m : positive) (entries : list (string * JsVal)) :
  valid_store kv = true →
  Array_isArray h keys = true →
  GetMember kv (selected_method withMetadata) = Callable f →
  f (options_object h (default_param (VStr "text") type)).1 keys
    (VRef (options_object h (default_param (VStr "text") type)).2)
  = (h2, Resolves (VRef m)) →
  h2 !! m = Some (CMap entries) →
  NoDup entries.*1 →
  ∃ r l props,
    kv_bulk_get h kv keys type withMetadata = Some r
    ∧ promise r = Fulfilled (VRef l)
    ∧ l ≠ m
    ∧ heap_after r !! m = Some (CMap entries)
    ∧ heap_after r !! l = Some (CObject props)
    ∧ size props = List.length entries.
Proof.
  intros Hv Ha Hm Hf Hmap Hnd.
  assert (Hin : m ∈ dom h2) by (apply elem_of_dom; by rewrite Hmap).
  eexists _, _, (add_entries entries ∅). split.
  { by eapply kv_bulk_get_store_map. }
  cbn [promise heap_after]. split; [done|].
  split; [|split; [|split]].
  - intros Heq. apply (alloc_fresh h2 (CObject (add_entries entries ∅))).
    by rewrite Heq.
  - by rewrite alloc_lookup_old.
  - apply alloc_lookup_new.
  - rewrite add_entries_list_to_map, (right_id_L ∅ (∪)).
    rewrite map_size_list_to_map, length_reverse; [done|].
    by rewrite fmap_reverse, reverse_Permutation.
Qed.

Lemma kv_bulk_get_copies_the_map_witness :
  ∃ r l props,
    kv_bulk_get heap_abc (KvObject sample_store) (VRef 1) (VStr "text")
      (VBool false) = Some r
    ∧ promise r = Fulfilled (VRef l)
    ∧ l ≠ 3%positive
    ∧ heap_after r !! 3%positive
      = Some (CMap [("a", VStr "1"); ("b", VStr "2"); ("c", VNull)])
    ∧ heap_after r !! l = Some (CObject props)
    ∧ size props = List.length [("a", VStr "1"); ("b", VStr "2"); ("c", VNull)].
Proof.
  eapply (kv_bulk_get_copies_the_map heap_abc (KvObject sample_store) sample_get
            (VRef 1) (VStr "text") (VBool false)).
  - reflexivity.
  - reflexivity.
  - reflexivity.
  - vm_compute. reflexivity.
  - vm_compute. reflexivity.
  - apply (bool_decide_unpack _). vm_compute. exact I.
Defined.



